(** * DxfViewer.vue: the control logic of the viewer component

    A shallow embedding of [src/components/DxfViewer.vue]: the reactive
    data of the component, the [Load] method (an async function, split at
    its single [await]), the URL watcher, the progress callback, the
    pointer-move handler and the event relay installed by [mounted].

    JavaScript numbers are IEEE 754 binary64 values; they are modelled by
    Rocq's primitive floats, which are the same format with the same
    rounding, so that divisions by zero produce the infinities and NaN the
    component would really store. *)

From Stdlib Require Import Floats String List Bool.
Import ListNotations.

Open Scope string_scope.

(* ================================================================== *)
(** ** Values exchanged with the outside *)

(** A value the engine hands to a subscribed handler.  The component only
    forwards it: primitives by value, objects by reference. *)
Inductive JsValue : Type :=
| JsUndefined
| JsNull
| JsBoolean (b : bool)
| JsNumber (n : float)
| JsString (s : string)
| JsObject (reference : nat).

(** A value an engine load is rejected with, when that value has a
    [toString()] giving a text (an Error, a string): the catch clause
    uses it only through [error.toString()], so it is represented by that
    text.  Rejection values without properties are in [Thrown] below. *)
Record LoadFailure : Type := { toString : string }.

(** How the promise returned by [dxfViewer.Load] settles. *)
Inductive Settlement : Type :=
| Fulfilled
| Rejected (reason : LoadFailure).

(** The orthographic camera of the engine ([dxfViewer.camera]). *)
Module Camera.
Record t : Type :=
  { left : float; right : float; top : float; bottom : float }.
End Camera.

(** [canvas.getBoundingClientRect()]: the fields the handler reads. *)
Module DOMRect.
Record t : Type :=
  { left : float; top : float; width : float; height : float }.
End DOMRect.

Record MouseEvent : Type := { clientX : float; clientY : float }.

Record Canvas : Type := { getBoundingClientRect : DOMRect.t }.

(** What the component can read from [this.dxfViewer] at one instant:
    [GetCanvas()] and [camera], each possibly null. *)
Record DxfViewer : Type := {
  GetCanvas : option Canvas;
  camera : option Camera.t
}.

Record Coordinates : Type := { x : float; y : float; z : float }.

(* ================================================================== *)
(** ** The component *)

(** The object returned by [data()]; [null] is [None]. *)
Record Component : Type := {
  isLoading : bool;
  progress : option float;
  progressText : option string;
  curProgressPhase : option string;
  error : option string;
  coordinates : option Coordinates
}.

Definition data : Component :=
  {| isLoading := false; progress := None; progressText := None;
     curProgressPhase := None; error := None; coordinates := None |}.

Definition set_isLoading (v : bool) (c : Component) : Component :=
  {| isLoading := v; progress := progress c; progressText := progressText c;
     curProgressPhase := curProgressPhase c; error := error c;
     coordinates := coordinates c |}.

Definition set_progress (v : option float) (c : Component) : Component :=
  {| isLoading := isLoading c; progress := v; progressText := progressText c;
     curProgressPhase := curProgressPhase c; error := error c;
     coordinates := coordinates c |}.

Definition set_progressText (v : option string) (c : Component) : Component :=
  {| isLoading := isLoading c; progress := progress c; progressText := v;
     curProgressPhase := curProgressPhase c; error := error c;
     coordinates := coordinates c |}.

Definition set_curProgressPhase (v : option string) (c : Component) : Component :=
  {| isLoading := isLoading c; progress := progress c;
     progressText := progressText c; curProgressPhase := v; error := error c;
     coordinates := coordinates c |}.

Definition set_error (v : option string) (c : Component) : Component :=
  {| isLoading := isLoading c; progress := progress c;
     progressText := progressText c; curProgressPhase := curProgressPhase c;
     error := v; coordinates := coordinates c |}.

Definition set_coordinates (v : option Coordinates) (c : Component) : Component :=
  {| isLoading := isLoading c; progress := progress c;
     progressText := progressText c; curProgressPhase := curProgressPhase c;
     error := error c; coordinates := v |}.

(** The argument of an outward event: the coordinates object, or the
    engine's payload. *)
Inductive EmitArg : Type :=
| ArgCoordinates (c : option Coordinates)
| ArgEngine (e : JsValue).

(** One call of [this.$emit(name, arg)]. *)
Record Emitted : Type := { emit_name : string; emit_arg : EmitArg }.

(** The two calls by which the component changes what the engine shows,
    [Load] and [Clear]; these are the calls the [engine] log records.  The
    reads [GetCanvas()] and [camera] are not logged: their results come in
    with the event that reads them.  The [Subscribe] calls are the table
    built by [mounted]. *)
Inductive EngineCall : Type :=
| CallLoad (url : string)
| CallClear.

(** The component together with the effects it has produced so far, each
    log in chronological order. *)
Record World : Type := {
  this : Component;
  emitted : list Emitted;
  console : list LoadFailure;
  engine : list EngineCall
}.

Definition created : World :=
  {| this := data; emitted := []; console := []; engine := [] |}.

(* ================================================================== *)
(** ** A state and exception monad for method bodies *)

Inductive Completion (A : Type) : Type :=
| Normal (a : A)
| Throw (e : LoadFailure).
Arguments Normal {A} a.
Arguments Throw {A} e.

Definition M (A : Type) : Type := World -> Completion A * World.

Definition ret {A} (a : A) : M A := fun w => (Normal a, w).

Definition bind {A B} (m : M A) (k : A -> M B) : M B :=
  fun w =>
    match m w with
    | (Normal a, w') => k a w'
    | (Throw e, w') => (Throw e, w')
    end.

Definition throw {A} (e : LoadFailure) : M A := fun w => (Throw e, w).

Notation "m ;; k" := (bind m (fun _ => k))
  (at level 61, right associativity).

(** [try { body } catch (e) { handler e } finally { fin }]: the finalizer
    runs on every path; when it completes normally the completion of the
    try/catch part stands. *)
Definition try_catch_finally {A}
    (body : M A) (handler : LoadFailure -> M A) (fin : M unit) : M A :=
  fun w =>
    let (r, w1) := body w in
    let (r', w2) :=
      match r with
      | Normal a => (Normal a, w1)
      | Throw e => handler e w1
      end in
    match fin w2 with
    | (Normal _, w3) => (r', w3)
    | (Throw e, w3) => (Throw e, w3)
    end.

(** Assignment to a field of [this]. *)
Definition assign (f : Component -> Component) : M unit :=
  fun w =>
    (Normal tt,
     {| this := f (this w); emitted := emitted w; console := console w;
        engine := engine w |}).

(** [this.$emit(name, arg)]. *)
Definition emit (name : string) (arg : EmitArg) : M unit :=
  fun w =>
    (Normal tt,
     {| this := this w;
        emitted := emitted w ++ [{| emit_name := name; emit_arg := arg |}];
        console := console w; engine := engine w |}).

(** [console.warn(error)]. *)
Definition console_warn (e : LoadFailure) : M unit :=
  fun w =>
    (Normal tt,
     {| this := this w; emitted := emitted w; console := console w ++ [e];
        engine := engine w |}).

(** A call on [this.dxfViewer]. *)
Definition call_engine (c : EngineCall) : M unit :=
  fun w =>
    (Normal tt,
     {| this := this w; emitted := emitted w; console := console w;
        engine := engine w ++ [c] |}).

(** [await p] once [p] has settled: a rejection is thrown in the body. *)
Definition await (p : Settlement) : M unit :=
  match p with
  | Fulfilled => ret tt
  | Rejected reason => throw reason
  end.

Definition get : M Component := fun w => (Normal (this w), w).

Notation "x <- m ;; k" := (bind m (fun x => k))
  (at level 61, m at next level, right associativity).

(* ================================================================== *)
(** ** Methods *)

(** [Load(url)] up to its [await]: the two assignments and the call that
    starts the engine load.  The call is the operand of the [await] at the
    head of the [try] block; it hands back a promise, so nothing of the
    block has completed when the function is suspended until that promise
    settles. *)
Definition Load_start (url : string) : M unit :=
  assign (set_isLoading true) ;;
  assign (set_error None) ;;
  call_engine (CallLoad url).

(** [Load(url)] from its [await] on, resumed with the settlement [p] of
    the engine's promise, on a component that still holds its engine and
    for a rejection value with a text; [dxfViewer_camera] is what
    [this.dxfViewer.camera] holds at that moment.  [Load_resume] below is
    the continuation without these two conditions, and
    [Load_resume_restricts] relates the two.  Nothing suspends in this part: it runs as one
    step of the event loop.  The completion is that of the promise [Load]
    returned: [Normal] resolves it, [Throw] rejects it. *)
Definition Load_settle (p : Settlement) (dxfViewer_camera : option Camera.t)
    : M unit :=
  try_catch_finally
    (await p ;;
     (* Initialize coordinates to center after load *)
     match dxfViewer_camera with
     | Some camera =>
         assign (set_coordinates (Some
           {| x := (Camera.left camera + Camera.right camera) / 2;
              y := (Camera.bottom camera + Camera.top camera) / 2;
              z := 0 |}%float))
     | None => ret tt
     end)
    (fun error =>
       console_warn error ;;
       assign (set_error (Some (toString error))))
    (assign (set_isLoading false) ;;
     assign (set_progressText None) ;;
     assign (set_progress None) ;;
     assign (set_curProgressPhase None)).

(** The watcher of the [dxfUrl] prop.  With a URL it runs [Load] up to
    the await (nothing follows [await this.Load(dxfUrl)] in the watcher);
    with [null] it clears the engine and three fields. *)
Definition watch_dxfUrl (dxfUrl : option string) : M unit :=
  match dxfUrl with
  | Some url => Load_start url
  | None =>
      call_engine CallClear ;;
      assign (set_error None) ;;
      assign (set_isLoading false) ;;
      assign (set_progress None)
  end.

(** The mousemove handler; [dxfViewer] is what [this.dxfViewer] is and
    exposes when the event arrives ([None] before [mounted] and after
    [destroyed]). *)
Definition _OnMouseMove (event : MouseEvent) (dxfViewer : option DxfViewer)
    : M unit :=
  match dxfViewer with
  | None => ret tt
  | Some viewer =>
      match GetCanvas viewer with
      | None => ret tt
      | Some canvas =>
          let rect := getBoundingClientRect canvas in
          let x := (clientX event - DOMRect.left rect)%float in
          let y := (clientY event - DOMRect.top rect)%float in
          (* Convert screen coordinates to normalized device coordinates *)
          let ndcX := ((x / DOMRect.width rect) * 2 - 1)%float in
          let ndcY := (- (y / DOMRect.height rect) * 2 + 1)%float in
          match camera viewer with
          | None => ret tt
          | Some camera =>
              let camWidth := (Camera.right camera - Camera.left camera)%float in
              let camHeight := (Camera.top camera - Camera.bottom camera)%float in
              let worldX := (Camera.left camera + (ndcX + 1) * camWidth / 2)%float in
              let worldY := (Camera.bottom camera + (ndcY + 1) * camHeight / 2)%float in
              assign (set_coordinates (Some
                {| x := worldX; y := worldY; z := 0%float |})) ;;
              (* Emit event for parent components *)
              c <- get ;;
              emit "coordinates-update" (ArgCoordinates (coordinates c))
          end
      end
  end.

(** [phase !== this.curProgressPhase], with [phase] a string. *)
Definition strict_ne (phase : string) (cur : option string) : bool :=
  match cur with
  | Some p => negb (String.eqb phase p)
  | None => true
  end.

(** The progress callback bound to the component; the [switch] has no
    default case. *)
Definition _OnProgress (phase : string) (size : float) (totalSize : option float)
    : M unit :=
  c <- get ;;
  (if strict_ne phase (curProgressPhase c) then
     (if String.eqb phase "font" then
        assign (set_progressText (Some "Fetching fonts..."))
      else if String.eqb phase "fetch" then
        assign (set_progressText (Some "Fetching file..."))
      else if String.eqb phase "parse" then
        assign (set_progressText (Some "Parsing file..."))
      else if String.eqb phase "prepare" then
        assign (set_progressText (Some "Preparing rendering data..."))
      else ret tt) ;;
     assign (set_curProgressPhase (Some phase))
   else ret tt) ;;
  match totalSize with
  | None => assign (set_progress (Some (-1)%float))
  | Some totalSize => assign (set_progress (Some (size / totalSize)%float))
  end.

(* ================================================================== *)
(** ** The event relay *)

(** A handler registered with the engine. *)
Definition Handler : Type := JsValue -> M unit.

(** The engine's table of subscriptions, in registration order. *)
Definition Subscriptions : Type := list (string * Handler).

(** [dxfViewer.Subscribe(eventName, handler)] adds one entry. *)
Definition dxfViewer_Subscribe (eventName : string) (handler : Handler)
    (subs : Subscriptions) : Subscriptions :=
  (subs ++ [(eventName, handler)])%list.

(** The local [Subscribe] closure of [mounted]. *)
Definition Subscribe (eventName : string) (subs : Subscriptions) : Subscriptions :=
  dxfViewer_Subscribe eventName
    (fun e => emit ("dxf-" ++ eventName) (ArgEngine e)) subs.

Definition eventNames : list string :=
  ["loaded"; "cleared"; "destroyed"; "resized"; "pointerdown";
   "pointerup"; "viewChanged"; "message"].

(** [mounted()]: the subscriptions the freshly constructed engine holds
    once the [for ... of] loop has run. *)
Definition mounted : Subscriptions :=
  fold_left (fun subs eventName => Subscribe eventName subs) eventNames [].

(** The engine's side of [Subscribe] (it belongs to the dxf-viewer
    library, not to this component): when the engine raises [eventName]
    with payload [e], every handler registered under that name is called
    once with [e], in registration order. *)
Fixpoint engine_raise (subs : Subscriptions) (eventName : string) (e : JsValue)
    : M unit :=
  match subs with
  | [] => ret tt
  | (name, handler) :: rest =>
      (if String.eqb name eventName then handler e else ret tt) ;;
      engine_raise rest eventName e
  end.

(** How many handlers are registered under a name. *)
Definition subscribed (subs : Subscriptions) (eventName : string) : nat :=
  length (filter (fun s => String.eqb (fst s) eventName) subs).

(* ================================================================== *)
(** ** The component in its environment *)

(** What can happen to a mounted component, one event-loop step each.
    The component holds its engine throughout (it is not destroyed within
    a trace), and the rejection values are those with a text. *)
Inductive Event : Type :=
| UrlChanged (dxfUrl : option string)
    (* the [dxfUrl] prop changes: the watcher runs *)
| ProgressCbk (phase : string) (size : float) (totalSize : option float)
    (* the engine calls the [progressCbk] it was given *)
| LoadSettled (url : string) (p : Settlement) (dxfViewer_camera : option Camera.t)
    (* the engine promise awaited by [Load(url)] settles *)
| MouseMove (event : MouseEvent) (dxfViewer : option DxfViewer)
    (* a mousemove event on the container *)
| EngineRaised (eventName : string) (e : JsValue).
    (* the engine raises one of its events *)

Definition react (ev : Event) : M unit :=
  match ev with
  | UrlChanged dxfUrl => watch_dxfUrl dxfUrl
  | ProgressCbk phase size totalSize => _OnProgress phase size totalSize
  | LoadSettled _ p dxfViewer_camera => Load_settle p dxfViewer_camera
  | MouseMove event dxfViewer => _OnMouseMove event dxfViewer
  | EngineRaised eventName e => engine_raise mounted eventName e
  end.

Definition step (ev : Event) (w : World) : World := snd (react ev w).

Definition run (trace : list Event) (w : World) : World :=
  fold_left (fun w ev => step ev w) trace w.

(** Removes the first occurrence of [url]; [None] when there is none. *)
Fixpoint take_pending (url : string) (pending : list string)
    : option (list string) :=
  match pending with
  | [] => None
  | u :: rest =>
      if String.eqb u url then Some rest
      else option_map (cons u) (take_pending url rest)
  end.

(** A trace the engine can really produce: every settlement answers a
    load started earlier and not yet settled, and progress callbacks come
    only while some load is in flight.  [pending] lists the loads in
    flight. *)
Fixpoint schedulable (pending : list string) (trace : list Event) : bool :=
  match trace with
  | [] => true
  | UrlChanged (Some url) :: rest => schedulable (url :: pending) rest
  | LoadSettled url _ _ :: rest =>
      match take_pending url pending with
      | Some pending' => schedulable pending' rest
      | None => false
      end
  | ProgressCbk _ _ _ :: rest =>
      match pending with
      | [] => false
      | _ :: _ => schedulable pending rest
      end
  | _ :: rest => schedulable pending rest
  end.

(** The load state of the specification, read off the component:
    [progressPhase] is [curProgressPhase], [progressLabel] is
    [progressText]. *)
Record LoadState : Type := {
  ls_isLoading : bool;
  ls_error : option string;
  ls_progress : option float;
  ls_progressPhase : option string;
  ls_progressLabel : option string
}.

Definition LoadState_of (c : Component) : LoadState :=
  {| ls_isLoading := isLoading c; ls_error := error c;
     ls_progress := progress c; ls_progressPhase := curProgressPhase c;
     ls_progressLabel := progressText c |}.

Definition default_LoadState : LoadState :=
  {| ls_isLoading := false; ls_error := None; ls_progress := None;
     ls_progressPhase := None; ls_progressLabel := None |}.

(* ================================================================== *)
(** ** Notions used in the statements *)

(** The invariant of the load state: an error is shown only when no load
    is marked as running. *)
Definition error_implies_idle (c : Component) : Prop :=
  error c <> None -> isLoading c = false.

(** The load state one load leaves behind when it runs alone. *)
Definition outcome_LoadState (p : Settlement) : LoadState :=
  {| ls_isLoading := false;
     ls_error := match p with
                 | Fulfilled => None
                 | Rejected reason => Some (toString reason)
                 end;
     ls_progress := None; ls_progressPhase := None; ls_progressLabel := None |}.

(** Events that neither start, clear nor settle a load. *)
Definition passive (ev : Event) : bool :=
  match ev with
  | UrlChanged _ | LoadSettled _ _ _ => false
  | ProgressCbk _ _ _ | MouseMove _ _ | EngineRaised _ _ => true
  end.

(** The events whose handler has an assignment to [coordinates] on the
    path taken. *)
Definition writes_coordinates (ev : Event) : bool :=
  match ev with
  | MouseMove _ _ => true
  | LoadSettled _ Fulfilled (Some _) => true
  | _ => false
  end.

(** The label table of the specification. *)
Definition label_table : list (string * string) :=
  [("font", "Fetching fonts...");
   ("fetch", "Fetching file...");
   ("parse", "Parsing file...");
   ("prepare", "Preparing rendering data...")].

(** The table's label for a phase; [None] for a phase it does not list. *)
Definition label_of (phase : string) : option string :=
  option_map snd (find (fun entry => String.eqb phase (fst entry)) label_table).

(** A viewer whose canvas has the bounding rectangle [rect] and whose
    camera is [cam]. *)
Definition viewer_with (rect : DOMRect.t) (cam : Camera.t) : DxfViewer :=
  {| GetCanvas := Some {| getBoundingClientRect := rect |};
     camera := Some cam |}.

(** The world after a pointer move stored and emitted [world]. *)
Definition pointer_stored (world : Coordinates) (w : World) : World :=
  {| this := set_coordinates (Some world) (this w);
     emitted :=
       (emitted w ++
        [{| emit_name := "coordinates-update";
            emit_arg := ArgCoordinates (Some world) |}])%list;
     console := console w; engine := engine w |}.

(** The mapping of the specification, written as it is there, for the
    pointer at [(x, y)] in a viewport of size [width] by [height]. *)
Definition MapPointer (x y width height : float) (cam : Camera.t) : Coordinates :=
  {| x := Camera.left cam
          + (((x / width) * 2 - 1) + 1) * (Camera.right cam - Camera.left cam) / 2;
     y := Camera.bottom cam
          + ((- (y / height) * 2 + 1) + 1) * (Camera.top cam - Camera.bottom cam) / 2;
     z := 0 |}%float.

(** The camera bounds and the viewport of the specification's example. *)
Definition bounds_10 : Camera.t :=
  {| Camera.left := (-10)%float; Camera.right := 10%float;
     Camera.top := 10%float; Camera.bottom := (-10)%float |}.

(** A 200 by 200 viewport at the origin of the page. *)
Definition viewport_200 : DOMRect.t :=
  {| DOMRect.left := 0%float; DOMRect.top := 0%float;
     DOMRect.width := 200%float; DOMRect.height := 200%float |}.

(** A relay entry as [Subscribe] registers it. *)
Definition relay_entry (eventName : string) : string * Handler :=
  (eventName, fun e => emit ("dxf-" ++ eventName) (ArgEngine e)).

(** The outward event a relay handler emits. *)
Definition relayed (e : JsValue) (eventName : string) : Emitted :=
  {| emit_name := "dxf-" ++ eventName; emit_arg := ArgEngine e |}.

(* ================================================================== *)
(** ** The template *)

(** The progress block of the template: the [q-linear-progress] bar with
    its [indeterminate] and [value] props, and the text under it when
    [progressText] is not null. *)
Record ProgressBlock : Type := {
  indeterminate : bool;
  value : float;
  progressText_shown : option string
}.

(** What the template displays: the [showing] prop of the loading
    overlay and the three blocks under their [v-if] conditions.  The
    coordinates block holds the numbers handed to [toFixed(2)]. *)
Record View : Type := {
  showing : bool;
  progress_block : option ProgressBlock;
  error_block : option string;
  coordinates_block : option Coordinates
}.

Definition render (c : Component) : View :=
  {| showing := isLoading c;
     progress_block :=
       match progress c with
       | Some p =>
           Some {| indeterminate := PrimFloat.ltb p 0;
                   value := p;
                   progressText_shown := progressText c |}
       | None => None
       end;
     error_block := error c;
     coordinates_block := coordinates c |}.

(** Nothing of a load is displayed: no overlay, no progress block, no
    error block. *)
Definition blank (v : View) : Prop :=
  showing v = false /\ progress_block v = None /\ error_block v = None.

(* ================================================================== *)
(** ** Load on a component without engine *)

(** The synchronous part of [Load(url)] when [this.dxfViewer] may be
    undefined or null (before [mounted], after [destroyed]).  Reading
    [this.dxfViewer.Load] then raises [TypeError], the error the
    JavaScript engine throws for a property read on undefined or null,
    inside the [try] block and before any [await]: the catch clause and
    the finalizer run at once.  With an engine this is [Load_start]. *)
Definition Load_sync (dxfViewer : option DxfViewer) (TypeError : LoadFailure)
    (url : string) : M unit :=
  assign (set_isLoading true) ;;
  assign (set_error None) ;;
  match dxfViewer with
  | Some _ => call_engine (CallLoad url)
  | None =>
      try_catch_finally
        (throw TypeError)
        (fun error =>
           console_warn error ;;
           assign (set_error (Some (toString error))))
        (assign (set_isLoading false) ;;
         assign (set_progressText None) ;;
         assign (set_progress None) ;;
         assign (set_curProgressPhase None))
  end.

(* ================================================================== *)
(** ** The continuation of Load in general *)

(** A value a promise is rejected with, or a statement throws, as far as
    the catch clause of [Load] can tell: a value whose [toString()]
    returns a text, or one of the two values that have no properties. *)
Inductive Thrown : Type :=
| Described (f : LoadFailure)
| ThrownUndefined
| ThrownNull.

(** How the engine's promise settles, with any rejection value. *)
Inductive EngineSettlement : Type :=
| EngineFulfilled
| EngineRejected (reason : Thrown).

(** Completions that can carry any thrown value. *)
Inductive Completion' (A : Type) : Type :=
| Normal' (a : A)
| Throw' (e : Thrown).
Arguments Normal' {A} a.
Arguments Throw' {A} e.

Definition M' (A : Type) : Type := World -> Completion' A * World.

Definition ret' {A} (a : A) : M' A := fun w => (Normal' a, w).

Definition bind' {A B} (m : M' A) (k : A -> M' B) : M' B :=
  fun w =>
    match m w with
    | (Normal' a, w') => k a w'
    | (Throw' e, w') => (Throw' e, w')
    end.

Definition throw' {A} (e : Thrown) : M' A := fun w => (Throw' e, w).

(** A computation of [M] seen in [M']. *)
Definition lift {A} (m : M A) : M' A :=
  fun w =>
    match m w with
    | (Normal a, w') => (Normal' a, w')
    | (Throw e, w') => (Throw' (Described e), w')
    end.

(** [try ... catch ... finally] as in [try_catch_finally], the catch
    clause receiving whatever was thrown. *)
Definition try_catch_finally' {A}
    (body : M' A) (handler : Thrown -> M' A) (fin : M' unit) : M' A :=
  fun w =>
    let (r, w1) := body w in
    let (r', w2) :=
      match r with
      | Normal' a => (Normal' a, w1)
      | Throw' e => handler e w1
      end in
    match fin w2 with
    | (Normal' _, w3) => (r', w3)
    | (Throw' e, w3) => (Throw' e, w3)
    end.

Definition await' (p : EngineSettlement) : M' unit :=
  match p with
  | EngineFulfilled => ret' tt
  | EngineRejected reason => throw' reason
  end.

(** What [console.warn(error)] records: the value, the two values without
    properties by the text the console prints for them. *)
Definition console_entry (error : Thrown) : LoadFailure :=
  match error with
  | Described f => f
  | ThrownUndefined => {| toString := "undefined" |}
  | ThrownNull => {| toString := "null" |}
  end.

(** [error.toString()]: on undefined and null the property read raises
    [TypeError "toString"]. *)
Definition error_toString (TypeError : string -> LoadFailure) (error : Thrown)
    : M' string :=
  match error with
  | Described f => ret' (toString f)
  | ThrownUndefined | ThrownNull => throw' (Described (TypeError "toString"))
  end.

(** [Load(url)] from its [await] on, for any rejection value and whether
    or not [this.dxfViewer] still holds the engine ([None] after
    [destroyed]).  [TypeError name] is the error the JavaScript engine
    raises when property [name] is read on undefined or null.  The read of
    [this.dxfViewer.camera] is inside the [try] block; the call of
    [error.toString()] is inside the catch clause, so what it throws leaves
    [Load] once the finalizer has run. *)
Definition Load_resume (TypeError : string -> LoadFailure)
    (p : EngineSettlement) (dxfViewer : option DxfViewer) : M' unit :=
  try_catch_finally'
    (bind' (await' p) (fun _ =>
     match dxfViewer with
     | None => throw' (Described (TypeError "camera"))
     | Some viewer =>
         match camera viewer with
         | Some camera =>
             lift (assign (set_coordinates (Some
               {| x := (Camera.left camera + Camera.right camera) / 2;
                  y := (Camera.bottom camera + Camera.top camera) / 2;
                  z := 0 |}%float)))
         | None => ret' tt
         end
     end))
    (fun error =>
       bind' (lift (console_warn (console_entry error))) (fun _ =>
       bind' (error_toString TypeError error) (fun text =>
       lift (assign (set_error (Some text))))))
    (lift (assign (set_isLoading false) ;;
           assign (set_progressText None) ;;
           assign (set_progress None) ;;
           assign (set_curProgressPhase None))).

(** The settlements of [Load_settle] among all settlements. *)
Definition general (p : Settlement) : EngineSettlement :=
  match p with
  | Fulfilled => EngineFulfilled
  | Rejected reason => EngineRejected (Described reason)
  end.

(** The text of the TypeError of one JavaScript engine (V8), used in
    examples. *)
Definition TypeError_of_undefined (name : string) : LoadFailure :=
  {| toString :=
       "TypeError: Cannot read properties of undefined (reading '"
       ++ name ++ "')" |}.

(* ================================================================== *)
(** ** Bookkeeping over traces *)

(** The loads in flight after [trace], started with [pending] in flight;
    the bookkeeping is that of [schedulable]. *)
Fixpoint in_flight (pending : list string) (trace : list Event) : list string :=
  match trace with
  | [] => pending
  | UrlChanged (Some url) :: rest => in_flight (url :: pending) rest
  | LoadSettled url _ _ :: rest =>
      match take_pending url pending with
      | Some pending' => in_flight pending' rest
      | None => in_flight pending rest
      end
  | _ :: rest => in_flight pending rest
  end.

(** Nothing of a load is in progress on the component. *)
Definition idle (c : Component) : Prop :=
  isLoading c = false /\ progress c = None /\
  progressText c = None /\ curProgressPhase c = None.

(** The outward events an input event gives rise to. *)
Definition emissions_of (ev : Event) : list Emitted :=
  match ev with
  | MouseMove event (Some viewer) =>
      match GetCanvas viewer, camera viewer with
      | Some canvas, Some cam =>
          let rect := getBoundingClientRect canvas in
          [{| emit_name := "coordinates-update";
              emit_arg :=
                ArgCoordinates
                  (Some (MapPointer
                           (clientX event - DOMRect.left rect)
                           (clientY event - DOMRect.top rect)
                           (DOMRect.width rect) (DOMRect.height rect) cam)) |}]
      | _, _ => []
      end
  | EngineRaised eventName e =>
      if existsb (String.eqb eventName) eventNames
      then [relayed e eventName] else []
  | _ => []
  end.

(** The engine calls an input event gives rise to. *)
Definition calls_of (ev : Event) : list EngineCall :=
  match ev with
  | UrlChanged (Some url) => [CallLoad url]
  | UrlChanged None => [CallClear]
  | _ => []
  end.

(** The console warnings an input event gives rise to. *)
Definition warnings_of (ev : Event) : list LoadFailure :=
  match ev with
  | LoadSettled _ (Rejected reason) _ => [reason]
  | _ => []
  end.

(** Events after which the error text is the one before. *)
Definition keeps_error (ev : Event) : bool :=
  match ev with
  | UrlChanged _ => false
  | LoadSettled _ (Rejected _) _ => false
  | _ => true
  end.

(** Events that are no URL change, no progress callback and no
    rejection. *)
Definition quiet (ev : Event) : bool :=
  match ev with
  | LoadSettled _ Fulfilled _ | MouseMove _ _ | EngineRaised _ _ => true
  | _ => false
  end.

(** The loading flag after an event, from the flag before: a load start
    raises it, a clear and every settlement lower it. *)
Definition flag_after (ev : Event) (flag : bool) : bool :=
  match ev with
  | UrlChanged (Some _) => true
  | UrlChanged None => false
  | LoadSettled _ _ _ => false
  | _ => flag
  end.

(** The error text after an event, from the text before: a URL change
    removes it, a rejection replaces it. *)
Definition error_after (ev : Event) (text : option string) : option string :=
  match ev with
  | UrlChanged _ => None
  | LoadSettled _ (Rejected reason) _ => Some (toString reason)
  | _ => text
  end.

(** The names the component emits under. *)
Definition outward_names : list string :=
  "coordinates-update" :: map (fun eventName => "dxf-" ++ eventName) eventNames.

(* ================================================================== *)
(** ** Basic facts about the handlers *)

Ltac run_method :=
  cbv [bind ret throw get assign emit console_warn call_engine await
       try_catch_finally]; cbn [fst snd this emitted console engine].

Lemma mounted_entries : mounted = map relay_entry eventNames.
Proof. reflexivity. Qed.

Lemma engine_raise_relay (names : list string) (eventName : string) (e : JsValue) :
  forall w,
    engine_raise (map relay_entry names) eventName e w =
    (Normal tt,
     {| this := this w;
        emitted :=
          (emitted w ++
           map (relayed e) (filter (fun n => String.eqb n eventName) names))%list;
        console := console w; engine := engine w |}).
Proof.
  induction names as [|n names IH]; intros [c em co en].
  - cbn. now rewrite app_nil_r.
  - cbn [map engine_raise relay_entry filter].
    unfold bind at 1.
    destruct (String.eqb n eventName).
    + unfold emit at 1. rewrite IH. cbn. now rewrite <- app_assoc.
    + unfold ret at 1. now rewrite IH.
Qed.

Lemma engine_raise_this (eventName : string) (e : JsValue) (w : World) :
  this (snd (engine_raise mounted eventName e w)) = this w.
Proof. rewrite mounted_entries, engine_raise_relay. reflexivity. Qed.

(** [strict_ne] decides that the recorded phase is another one. *)
Lemma strict_ne_true (phase : string) (cur : option string) :
  strict_ne phase cur = true <-> cur <> Some phase.
Proof.
  destruct cur as [p|]; cbn.
  - rewrite negb_true_iff, String.eqb_neq. split; congruence.
  - split; [discriminate | reflexivity].
Qed.

Section OnProgress_facts.

Variables (phase : string) (size : float) (totalSize : option float).
Variable w : World.

(** Splits on the phase test, on the cases of the switch and on
    [totalSize]. *)
Ltac progress_cases :=
  unfold _OnProgress; run_method;
  destruct (strict_ne phase (curProgressPhase (this w)));
  repeat match goal with
         | |- context [if String.eqb ?a ?b then _ else _] =>
             destruct (String.eqb a b)
         end;
  destruct totalSize.

(** What a progress callback leaves alone. *)
Lemma OnProgress_frame :
  let w' := snd (_OnProgress phase size totalSize w) in
  isLoading (this w') = isLoading (this w) /\
  error (this w') = error (this w) /\
  coordinates (this w') = coordinates (this w) /\
  emitted w' = emitted w /\ console w' = console w /\ engine w' = engine w.
Proof. progress_cases; cbn; repeat split. Qed.

(** The label after a callback: the switch read as a table lookup. *)
Lemma OnProgress_progressText :
  progressText (this (snd (_OnProgress phase size totalSize w))) =
  if strict_ne phase (curProgressPhase (this w)) then
    match label_of phase with
    | Some label => Some label
    | None => progressText (this w)
    end
  else progressText (this w).
Proof.
  unfold label_of. cbn [label_table find fst snd option_map].
  progress_cases; reflexivity.
Qed.

Lemma OnProgress_progress :
  progress (this (snd (_OnProgress phase size totalSize w))) =
  Some match totalSize with
       | None => (-1)%float
       | Some totalSize => (size / totalSize)%float
       end.
Proof. progress_cases; reflexivity. Qed.

End OnProgress_facts.

(** What the pointer handler leaves alone. *)
Lemma OnMouseMove_frame (event : MouseEvent) (dxfViewer : option DxfViewer)
    (w : World) :
  let w' := snd (_OnMouseMove event dxfViewer w) in
  LoadState_of (this w') = LoadState_of (this w) /\
  console w' = console w /\ engine w' = engine w.
Proof.
  unfold _OnMouseMove.
  destruct dxfViewer as [[[canvas|] [cam|]]|]; run_method; cbn; repeat split.
Qed.

(** The component after a settlement, field by field. *)
Lemma Load_settle_this (p : Settlement) (cam : option Camera.t) (w : World) :
  this (snd (Load_settle p cam w)) =
  {| isLoading := false; progress := None; progressText := None;
     curProgressPhase := None;
     error := match p with
              | Fulfilled => error (this w)
              | Rejected reason => Some (toString reason)
              end;
     coordinates :=
       match p, cam with
       | Fulfilled, Some camera =>
           Some {| x := (Camera.left camera + Camera.right camera) / 2;
                   y := (Camera.bottom camera + Camera.top camera) / 2;
                   z := 0 |}%float
       | _, _ => coordinates (this w)
       end |}.
Proof.
  unfold Load_settle. destruct p as [|reason], cam as [camera|];
    run_method; reflexivity.
Qed.

(** The component after the watcher ran. *)
Lemma watch_dxfUrl_this (dxfUrl : option string) (w : World) :
  this (snd (watch_dxfUrl dxfUrl w)) =
  match dxfUrl with
  | Some _ => set_error None (set_isLoading true (this w))
  | None => set_progress None (set_isLoading false (set_error None (this w)))
  end.
Proof. destruct dxfUrl; unfold watch_dxfUrl, Load_start; run_method; reflexivity. Qed.

(* ================================================================== *)
(** ** The load state machine *)

Lemma step_error_implies_idle (ev : Event) (w : World) :
  error_implies_idle (this w) -> error_implies_idle (this (step ev w)).
Proof.
  unfold error_implies_idle, step. intros Hw.
  destruct ev as [dxfUrl|phase size totalSize|url p cam|event dxfViewer|name e];
    cbn [react].
  - rewrite watch_dxfUrl_this. destruct dxfUrl; cbn; congruence.
  - destruct (OnProgress_frame phase size totalSize w) as (Hl & He & _).
    rewrite Hl, He. exact Hw.
  - rewrite Load_settle_this. reflexivity.
  - destruct (OnMouseMove_frame event dxfViewer w) as (Hs & _).
    pose proof (f_equal ls_isLoading Hs) as Hl.
    pose proof (f_equal ls_error Hs) as He.
    cbn in Hl, He. rewrite Hl, He. exact Hw.
  - rewrite engine_raise_this. exact Hw.
Qed.

Lemma run_error_implies_idle (trace : list Event) :
  forall w, error_implies_idle (this w) -> error_implies_idle (this (run trace w)).
Proof.
  induction trace as [|ev trace IH]; intros w Hw.
  - exact Hw.
  - cbn. apply IH. now apply step_error_implies_idle.
Qed.

(** C2. In every state the component reaches from its creation, through
    any sequence of URL changes (loads and clears), progress callbacks,
    settlements, pointer moves and engine events, a non-null [error]
    comes with [isLoading = false]. *)
Theorem error_implies_not_loading (trace : list Event) :
  error (this (run trace created)) <> None ->
  isLoading (this (run trace created)) = false.
Proof.
  apply (run_error_implies_idle trace created).
  intros H. reflexivity.
Qed.

(** A failed load: the error is set, the loading flag is down. *)
Lemma error_implies_not_loading_witness :
  let trace :=
    [UrlChanged (Some "a.dxf");
     LoadSettled "a.dxf" (Rejected {| toString := "Error: boom" |}) None] in
  error (this (run trace created)) = Some "Error: boom" /\
  isLoading (this (run trace created)) = false.
Proof.
  intros trace. split.
  - reflexivity.
  - apply (error_implies_not_loading trace). vm_compute. discriminate.
Defined.

(** C3. When a load settles, fulfilled or rejected, the finalizer has
    run: [isLoading] is false and [progress], [curProgressPhase] and
    [progressText] are null.  Of the load state only [error] can differ
    from its default: it holds the failure text after a rejection and is
    left as it was after a success. *)
Theorem Load_settle_finalizer (url : string) (p : Settlement)
    (cam : option Camera.t) (w : World) :
  let c' := this (step (LoadSettled url p cam) w) in
  isLoading c' = false /\
  progress c' = None /\
  curProgressPhase c' = None /\
  progressText c' = None /\
  LoadState_of c' =
    {| ls_isLoading := false; ls_error := error c'; ls_progress := None;
       ls_progressPhase := None; ls_progressLabel := None |} /\
  error c' = match p with
             | Fulfilled => error (this w)
             | Rejected reason => Some (toString reason)
             end.
Proof.
  unfold step. cbn [react]. rewrite Load_settle_this. cbn.
  repeat split.
Qed.

Ltac run_method' :=
  cbv [bind' ret' throw' lift await' error_toString try_catch_finally'
       console_entry general];
  run_method.

(** On a component that still holds its engine and for a rejection value
    with a text, the general continuation is [Load_settle]. *)
Lemma Load_resume_restricts (TypeError : string -> LoadFailure)
    (p : Settlement) (viewer : DxfViewer) (w : World) :
  Load_resume TypeError (general p) (Some viewer) w =
  lift (Load_settle p (camera viewer)) w.
Proof.
  unfold Load_resume, Load_settle.
  destruct p as [|reason], (camera viewer) as [cam|];
    run_method'; reflexivity.
Qed.

(** C9, as the specification states it, fails for a rejection value
    without properties: when the engine load is rejected with undefined,
    [error.toString()] throws in the catch clause, [error] is not set, and
    after the finalizer the promise of [Load] is rejected with that
    TypeError. *)
Lemma undescribed_rejection_leaves_Load :
  let loading := snd (Load_start "a.dxf" created) in
  let r := Load_resume TypeError_of_undefined (EngineRejected ThrownUndefined)
             (Some (viewer_with viewport_200 bounds_10)) loading in
  fst r = Throw' (Described (TypeError_of_undefined "toString")) /\
  error (this (snd r)) = None /\
  isLoading (this (snd r)) = false.
Proof. cbv zeta. repeat split. Qed.

(** C9, amended. When the engine load is rejected with a value that has
    a [toString()] giving a text, the failure is caught inside [Load] and
    not raised again: the resumed function completes normally, so the
    promise [Load] returned resolves.  On the component the rejection only
    sets [error] to that text before the finalizer runs; nothing is emitted
    and no engine call is made (the failure is also written to the console
    as a warning).  For such rejections and for a fulfilled load [Load]
    never completes by throwing, with or without engine at that moment,
    and neither does its part before the await. *)
Theorem described_failure_is_caught (TypeError : string -> LoadFailure)
    (url : string) (f : LoadFailure) (dxfViewer : option DxfViewer)
    (w : World) :
  Load_resume TypeError (EngineRejected (Described f)) dxfViewer w =
    (Normal' tt,
     {| this :=
          {| isLoading := false; progress := None; progressText := None;
             curProgressPhase := None; error := Some (toString f);
             coordinates := coordinates (this w) |};
        emitted := emitted w;
        console := (console w ++ [f])%list;
        engine := engine w |}) /\
  (forall p : Settlement,
     fst (Load_resume TypeError (general p) dxfViewer w) = Normal' tt) /\
  fst (Load_start url w) = Normal tt.
Proof.
  split; [|split].
  - unfold Load_resume. run_method'. reflexivity.
  - intros [|reason]; unfold Load_resume;
      destruct dxfViewer as [[canvas [cam|]]|]; run_method'; reflexivity.
  - unfold Load_start. run_method. reflexivity.
Qed.

(* ================================================================== *)
(** ** The progress callback *)

(** The phase recorded after a callback is the phase of the callback. *)
Lemma OnProgress_curProgressPhase (phase : string) (size : float)
    (totalSize : option float) (w : World) :
  curProgressPhase (this (snd (_OnProgress phase size totalSize w))) =
  Some phase.
Proof.
  unfold _OnProgress. run_method.
  destruct (strict_ne phase (curProgressPhase (this w))) eqn:E.
  - repeat match goal with
           | |- context [if String.eqb ?a ?b then _ else _] =>
               destruct (String.eqb a b)
           end;
      destruct totalSize; reflexivity.
  - assert (Hcur : curProgressPhase (this w) = Some phase).
    { destruct (curProgressPhase (this w)) as [p|]; [|discriminate E].
      cbn in E. apply negb_false_iff, String.eqb_eq in E. now subst p. }
    destruct totalSize; cbn; exact Hcur.
Qed.

(** C7. A progress callback with a phase other than the recorded one
    sets the label from the fixed table, and keeps the label when the
    phase is not in the table; with the recorded phase the label is kept.
    Then [progress] becomes -1 when [totalSize] is null and the unclamped
    quotient [size / totalSize] otherwise.  The two callbacks of the
    specification give 0.5 with "Fetching file..." and -1 with
    "Parsing file..."; 150 of 100 gives 1.5.  After the callback the
    recorded phase is the phase of the callback, which is what the next
    callback is compared with. *)
Theorem OnProgress_label_and_ratio :
  (forall phase size totalSize w,
     let c := this w in
     let c' := this (snd (_OnProgress phase size totalSize w)) in
     (curProgressPhase c <> Some phase ->
      progressText c' = match label_of phase with
                        | Some label => Some label
                        | None => progressText c
                        end) /\
     (curProgressPhase c = Some phase -> progressText c' = progressText c) /\
     progress c' = Some match totalSize with
                        | None => (-1)%float
                        | Some totalSize => (size / totalSize)%float
                        end /\
     curProgressPhase c' = Some phase) /\
  label_of "font" = Some "Fetching fonts..." /\
  label_of "fetch" = Some "Fetching file..." /\
  label_of "parse" = Some "Parsing file..." /\
  label_of "prepare" = Some "Preparing rendering data..." /\
  (let c' := this (snd (_OnProgress "fetch" 50 (Some 100%float) created)) in
   progress c' = Some 0.5%float /\ progressText c' = Some "Fetching file...") /\
  (let c' := this (snd (_OnProgress "parse" 10 None created)) in
   progress c' = Some (-1)%float /\ progressText c' = Some "Parsing file...") /\
  progress (this (snd (_OnProgress "fetch" 150 (Some 100%float) created))) =
    Some 1.5%float.
Proof.
  split; [|repeat split].
  intros phase size totalSize w c c'. subst c c'.
  rewrite OnProgress_progressText, OnProgress_progress,
    OnProgress_curProgressPhase.
  repeat split.
  - intros Hne. apply strict_ne_true in Hne. now rewrite Hne.
  - intros Heq.
    destruct (strict_ne phase (curProgressPhase (this w))) eqn:E; [|reflexivity].
    apply strict_ne_true in E. contradiction.
Qed.

(** The first callback of a load in its "fetch" phase. *)
Lemma OnProgress_label_and_ratio_witness :
  curProgressPhase (this created) <> Some "fetch" /\
  progressText (this (snd (_OnProgress "fetch" 50 (Some 100%float) created))) =
    Some "Fetching file...".
Proof.
  assert (H : curProgressPhase (this created) <> Some "fetch")
    by (cbn; discriminate).
  split; [exact H|].
  exact (proj1 (proj1 OnProgress_label_and_ratio
                  "fetch" 50%float (Some 100%float) created) H).
Defined.

(* ================================================================== *)
(** ** The pointer handler *)

Lemma OnMouseMove_maps (event : MouseEvent) (rect : DOMRect.t) (cam : Camera.t)
    (w : World) :
  _OnMouseMove event (Some (viewer_with rect cam)) w =
  (Normal tt,
   pointer_stored
     (MapPointer (clientX event - DOMRect.left rect)
                 (clientY event - DOMRect.top rect)
                 (DOMRect.width rect) (DOMRect.height rect) cam) w).
Proof. unfold _OnMouseMove, viewer_with. run_method. reflexivity. Qed.

(** C6. With a canvas and a camera, a pointer move at [(x, y)] relative
    to a viewport of positive width and height stores (and emits) the
    world point
    [(left + ((x/width*2-1)+1)*(right-left)/2,
      bottom + ((-(y/height)*2+1)+1)*(top-bottom)/2, 0)].
    With bounds -10..10 on both axes and a 200 by 200 viewport, device
    (100,100) gives (0,0,0), (0,0) gives (-10,10,0) and (200,200) gives
    (10,-10,0). *)
Theorem pointer_maps_to_world :
  (forall event rect cam w,
     PrimFloat.ltb 0 (DOMRect.width rect) = true ->
     PrimFloat.ltb 0 (DOMRect.height rect) = true ->
     let x := (clientX event - DOMRect.left rect)%float in
     let y := (clientY event - DOMRect.top rect)%float in
     let width := DOMRect.width rect in
     let height := DOMRect.height rect in
     let world :=
       {| x := Camera.left cam
               + (((x / width) * 2 - 1) + 1)
                 * (Camera.right cam - Camera.left cam) / 2;
          y := Camera.bottom cam
               + ((- (y / height) * 2 + 1) + 1)
                 * (Camera.top cam - Camera.bottom cam) / 2;
          z := 0 |}%float in
     _OnMouseMove event (Some (viewer_with rect cam)) w =
     (Normal tt, pointer_stored world w)) /\
  coordinates (this (step (MouseMove {| clientX := 100; clientY := 100 |}
                             (Some (viewer_with viewport_200 bounds_10)))
                          created)) =
    Some {| x := 0; y := 0; z := 0 |}%float /\
  coordinates (this (step (MouseMove {| clientX := 0; clientY := 0 |}
                             (Some (viewer_with viewport_200 bounds_10)))
                          created)) =
    Some {| x := -10; y := 10; z := 0 |}%float /\
  coordinates (this (step (MouseMove {| clientX := 200; clientY := 200 |}
                             (Some (viewer_with viewport_200 bounds_10)))
                          created)) =
    Some {| x := 10; y := -10; z := 0 |}%float.
Proof.
  split; [|repeat split].
  intros event rect cam w _ _ x y width height world.
  apply OnMouseMove_maps.
Qed.

(** The centre of the 200 by 200 viewport. *)
Lemma pointer_maps_to_world_witness :
  PrimFloat.ltb 0 (DOMRect.width viewport_200) = true /\
  PrimFloat.ltb 0 (DOMRect.height viewport_200) = true /\
  _OnMouseMove {| clientX := 100; clientY := 100 |}
    (Some (viewer_with viewport_200 bounds_10)) created =
  (Normal tt, pointer_stored {| x := 0; y := 0; z := 0 |}%float created).
Proof.
  assert (Hw : PrimFloat.ltb 0 (DOMRect.width viewport_200) = true)
    by reflexivity.
  assert (Hh : PrimFloat.ltb 0 (DOMRect.height viewport_200) = true)
    by reflexivity.
  split; [exact Hw|split; [exact Hh|]].
  exact (proj1 pointer_maps_to_world
           {| clientX := 100; clientY := 100 |} viewport_200 bounds_10 created
           Hw Hh).
Defined.

(** C5, as the specification states it, fails: nothing in the handler
    looks at the size of the rectangle.  With a viewport of zero width
    the division gives an infinity, which is stored and emitted. *)
Lemma zero_width_is_not_skipped :
  let rect := {| DOMRect.left := 0; DOMRect.top := 0;
                 DOMRect.width := 0; DOMRect.height := 200 |}%float in
  let w' := step (MouseMove {| clientX := 5; clientY := 100 |}
                    (Some (viewer_with rect bounds_10))) created in
  PrimFloat.eqb (DOMRect.width rect) 0 = true /\
  w' <> created /\
  coordinates (this w') = Some {| x := infinity; y := 0; z := 0 |}%float /\
  emitted w' =
    [{| emit_name := "coordinates-update";
        emit_arg := ArgCoordinates
                      (Some {| x := infinity; y := 0; z := 0 |}%float) |}].
Proof.
  cbv zeta. split; [reflexivity|]. split; [|split; reflexivity].
  intros H. apply (f_equal emitted) in H. vm_compute in H. discriminate H.
Qed.

(** C5, amended. The handler does nothing when there is no viewer, no
    canvas or no camera.  It has no guard on the viewport rectangle: with
    a canvas and a camera it stores and emits the point given by the
    mapping for every rectangle, one of zero width or height included. *)
Theorem OnMouseMove_guards :
  (forall event w, _OnMouseMove event None w = (Normal tt, w)) /\
  (forall event cam w,
     _OnMouseMove event (Some {| GetCanvas := None; camera := cam |}) w =
     (Normal tt, w)) /\
  (forall event canvas w,
     _OnMouseMove event (Some {| GetCanvas := canvas; camera := None |}) w =
     (Normal tt, w)) /\
  (forall event rect cam w,
     _OnMouseMove event (Some (viewer_with rect cam)) w =
     (Normal tt,
      pointer_stored
        (MapPointer (clientX event - DOMRect.left rect)
                    (clientY event - DOMRect.top rect)
                    (DOMRect.width rect) (DOMRect.height rect) cam) w)).
Proof.
  split; [reflexivity|]. split; [reflexivity|]. split.
  - intros event [canvas|] w; reflexivity.
  - intros event rect cam w. apply OnMouseMove_maps.
Qed.

(* ================================================================== *)
(** ** The relay *)

(** C8. [mounted] subscribes to the eight engine events, once each and
    to nothing else; whenever the engine raises one of them, exactly one
    outward event is emitted, named "dxf-" followed by the engine's name
    and carrying the engine's payload as it is. *)
Theorem relay_is_one_to_one :
  map fst mounted =
    ["loaded"; "cleared"; "destroyed"; "resized"; "pointerdown";
     "pointerup"; "viewChanged"; "message"] /\
  Forall (fun eventName => subscribed mounted eventName = 1) (map fst mounted) /\
  Forall (fun eventName =>
            forall e w,
              engine_raise mounted eventName e w =
              (Normal tt,
               {| this := this w;
                  emitted :=
                    (emitted w ++
                     [{| emit_name := "dxf-" ++ eventName;
                         emit_arg := ArgEngine e |}])%list;
                  console := console w; engine := engine w |}))
         (map fst mounted).
Proof.
  split; [reflexivity|]. split.
  - repeat constructor.
  - repeat constructor; intros e w;
      rewrite mounted_entries, engine_raise_relay; reflexivity.
Qed.

(* ================================================================== *)
(** ** Who writes the coordinates *)

(** C10. Only a pointer move and the success of a load with a camera
    write [coordinates]; the latter stores the centre of the camera
    bounds.  Every other event keeps the stored reading: in particular a
    clear, a failed load and a successful load without camera. *)
Theorem coordinates_frame :
  (forall ev w,
     writes_coordinates ev = false ->
     coordinates (this (step ev w)) = coordinates (this w)) /\
  (forall url cam w,
     coordinates (this (step (LoadSettled url Fulfilled (Some cam)) w)) =
     Some {| x := (Camera.left cam + Camera.right cam) / 2;
             y := (Camera.bottom cam + Camera.top cam) / 2;
             z := 0 |}%float) /\
  (forall w,
     coordinates (this (step (UrlChanged None) w)) = coordinates (this w)) /\
  (forall url reason cam w,
     coordinates (this (step (LoadSettled url (Rejected reason) cam) w)) =
     coordinates (this w)) /\
  (forall url w,
     coordinates (this (step (LoadSettled url Fulfilled None) w)) =
     coordinates (this w)).
Proof.
  assert (frame : forall ev w,
            writes_coordinates ev = false ->
            coordinates (this (step ev w)) = coordinates (this w)).
  { intros ev w Hev. unfold step.
    destruct ev as [dxfUrl|phase size totalSize|url p cam|event dxfViewer|name e];
      cbn [react].
    - rewrite watch_dxfUrl_this. destruct dxfUrl; reflexivity.
    - apply (OnProgress_frame phase size totalSize w).
    - rewrite Load_settle_this.
      destruct p as [|reason], cam as [camera|]; try reflexivity.
      discriminate Hev.
    - discriminate Hev.
    - now rewrite engine_raise_this. }
  split; [exact frame|]. split.
  - intros url cam w. unfold step. cbn [react].
    now rewrite Load_settle_this.
  - repeat split; intros; apply frame; reflexivity.
Qed.

(** A clear after a pointer move keeps the reading. *)
Lemma coordinates_frame_witness :
  let w := step (MouseMove {| clientX := 100; clientY := 100 |}
                   (Some (viewer_with viewport_200 bounds_10))) created in
  writes_coordinates (UrlChanged None) = false /\
  coordinates (this (step (UrlChanged None) w)) =
    Some {| x := 0; y := 0; z := 0 |}%float.
Proof.
  intros w.
  assert (H : writes_coordinates (UrlChanged None) = false) by reflexivity.
  split; [exact H|].
  exact (proj1 coordinates_frame (UrlChanged None) w H).
Defined.

(* ================================================================== *)
(** ** Clearing *)

(** C4, as the specification states it, fails: the null branch of the
    watcher assigns [error], [isLoading] and [progress] only.  A clear
    during the "fetch" phase of a load keeps the phase and its label. *)
Lemma clear_keeps_phase_and_label :
  let trace :=
    [UrlChanged (Some "a.dxf");
     ProgressCbk "fetch" 50 (Some 100%float);
     UrlChanged None] in
  schedulable [] trace = true /\
  LoadState_of (this (run trace created)) <> default_LoadState /\
  progressText (this (run trace created)) = Some "Fetching file..." /\
  curProgressPhase (this (run trace created)) = Some "fetch".
Proof.
  cbv zeta. split; [reflexivity|]. split; [|split; reflexivity].
  intros H. apply (f_equal ls_progressLabel) in H. vm_compute in H.
  discriminate H.
Qed.

(** C4, amended. Setting the URL to null tells the engine to clear and
    sets [isLoading] to false and [error] and [progress] to null in every
    state; [curProgressPhase], [progressText] and [coordinates] are left
    as they are.  Clearing twice is the same as clearing once, and on an
    idle instance (load state at its defaults) the component does not
    change. *)
Theorem Clear_resets (w : World) :
  let w' := step (UrlChanged None) w in
  (isLoading (this w') = false /\
   error (this w') = None /\
   progress (this w') = None) /\
  (curProgressPhase (this w') = curProgressPhase (this w) /\
   progressText (this w') = progressText (this w) /\
   coordinates (this w') = coordinates (this w)) /\
  (engine w' = (engine w ++ [CallClear])%list /\ emitted w' = emitted w) /\
  this (step (UrlChanged None) w') = this w' /\
  (LoadState_of (this w) = default_LoadState ->
   this w' = this w /\ LoadState_of (this w') = default_LoadState).
Proof.
  unfold step. cbn [react]. rewrite !watch_dxfUrl_this.
  destruct w as [[l p t ph e co] em cs en]. cbn.
  do 3 (split; [repeat split|]). split; [reflexivity|].
  intros H. injection H as -> -> -> -> ->. split; reflexivity.
Qed.

(** Clearing the freshly created component. *)
Lemma Clear_resets_witness :
  LoadState_of (this created) = default_LoadState /\
  this (step (UrlChanged None) created) = this created /\
  LoadState_of (this (step (UrlChanged None) created)) = default_LoadState.
Proof.
  assert (H : LoadState_of (this created) = default_LoadState) by reflexivity.
  split; [exact H|].
  exact (proj2 (proj2 (proj2 (proj2 (Clear_resets created)))) H).
Defined.

(* ================================================================== *)
(** ** Overlapping loads *)

Lemma run_app (t1 t2 : list Event) (w : World) :
  run (t1 ++ t2) w = run t2 (run t1 w).
Proof. apply fold_left_app. Qed.

Lemma passive_step_error (ev : Event) (w : World) :
  passive ev = true -> error (this (step ev w)) = error (this w).
Proof.
  unfold step.
  destruct ev as [dxfUrl|phase size totalSize|url p cam|event dxfViewer|name e];
    cbn [react passive]; try discriminate; intros _.
  - apply (OnProgress_frame phase size totalSize w).
  - destruct (OnMouseMove_frame event dxfViewer w) as (Hs & _).
    exact (f_equal ls_error Hs).
  - now rewrite engine_raise_this.
Qed.

Lemma passive_run_error (q : list Event) :
  forall w, forallb passive q = true -> error (this (run q w)) = error (this w).
Proof.
  induction q as [|ev q IH]; intros w Hq; [reflexivity|].
  cbn in Hq. apply andb_true_iff in Hq as [Hev Hq].
  cbn. rewrite (IH _ Hq). now apply passive_step_error.
Qed.

Lemma LoadState_after_settle (url : string) (p : Settlement)
    (cam : option Camera.t) (w : World) :
  LoadState_of (this (step (LoadSettled url p cam) w)) =
  {| ls_isLoading := false;
     ls_error := match p with
                 | Fulfilled => error (this w)
                 | Rejected reason => Some (toString reason)
                 end;
     ls_progress := None; ls_progressPhase := None; ls_progressLabel := None |}.
Proof. unfold step. cbn [react]. now rewrite Load_settle_this. Qed.

Lemma error_after_settle (url : string) (p : Settlement)
    (cam : option Camera.t) (w : World) :
  error (this (step (LoadSettled url p cam) w)) =
  match p with
  | Fulfilled => error (this w)
  | Rejected reason => Some (toString reason)
  end.
Proof. exact (f_equal ls_error (LoadState_after_settle url p cam w)). Qed.

Lemma run_one (ev : Event) (w : World) : run [ev] w = step ev w.
Proof. reflexivity. Qed.

Lemma error_after_start (url : string) (w : World) :
  error (this (step (UrlChanged (Some url)) w)) = None.
Proof. unfold step. cbn [react]. now rewrite watch_dxfUrl_this. Qed.

(** A load that runs alone leaves [outcome_LoadState]. *)
Lemma single_load_outcome (url : string) (p : Settlement) (cam : option Camera.t)
    (q : list Event) (w : World) :
  forallb passive q = true ->
  LoadState_of
    (this (run ([UrlChanged (Some url)] ++ q ++ [LoadSettled url p cam]) w)) =
  outcome_LoadState p.
Proof.
  intros Hq. rewrite !run_app, !run_one.
  rewrite LoadState_after_settle, (passive_run_error q _ Hq), error_after_start.
  reflexivity.
Qed.

(** C1, as the specification states it, fails: [Load] keeps no
    generation token and its continuation assigns unconditionally.  With
    A started, then B, B fulfilled and A rejected afterwards, the final
    state shows A's failure although B succeeded.  And when A settles
    while B is still in flight, A's finalizer takes back the loading flag
    and the progress that B's start and B's callback had set. *)
Lemma stale_settlement_is_committed :
  let boom := {| toString := "Error: boom" |} in
  let started :=
    [UrlChanged (Some "a.dxf"); UrlChanged (Some "b.dxf")] in
  let late_failure :=
    (started ++
     [LoadSettled "b.dxf" Fulfilled None;
      LoadSettled "a.dxf" (Rejected boom) None])%list in
  let b_reports :=
    (started ++ [ProgressCbk "fetch" 50 (Some 100%float)])%list in
  let a_settles_first :=
    (b_reports ++ [LoadSettled "a.dxf" Fulfilled None])%list in
  (schedulable [] late_failure = true /\
   LoadState_of (this (run late_failure created)) <> outcome_LoadState Fulfilled /\
   error (this (run late_failure created)) = Some "Error: boom") /\
  (schedulable [] a_settles_first = true /\
   isLoading (this (run b_reports created)) = true /\
   progress (this (run b_reports created)) = Some 0.5%float /\
   isLoading (this (run a_settles_first created)) = false /\
   progress (this (run a_settles_first created)) = None).
Proof.
  cbv zeta. split.
  - split; [reflexivity|]. split; [|reflexivity].
    intros H. apply (f_equal ls_error) in H. vm_compute in H. discriminate H.
  - repeat split.
Qed.

(** C1, amended. Every settlement commits, whichever load it belongs
    to.  When A is started, B is started before A settles, and both
    settle with only progress callbacks, pointer moves and engine events
    in between, the final load state has [isLoading = false] and
    [progress], phase and label null, and [error] is the failure text of
    the last settlement that was a rejection, or null when both loads
    were fulfilled.  So with A settling last the state is B's outcome when
    A is fulfilled and A's outcome when A is rejected; with B settling
    last it is B's outcome when B is rejected and A's when B is
    fulfilled. *)
Theorem overlapping_loads_last_rejection
    (urlA urlB : string) (pA pB : Settlement) (camA camB : option Camera.t)
    (q1 q2 q3 : list Event) (w : World) :
  forallb passive q1 = true ->
  forallb passive q2 = true ->
  forallb passive q3 = true ->
  let started :=
    ([UrlChanged (Some urlA)] ++ q1 ++ [UrlChanged (Some urlB)] ++ q2)%list in
  LoadState_of
    (this (run (started ++ [LoadSettled urlB pB camB] ++ q3
                        ++ [LoadSettled urlA pA camA]) w)) =
    match pA with
    | Fulfilled => outcome_LoadState pB
    | Rejected _ => outcome_LoadState pA
    end /\
  LoadState_of
    (this (run (started ++ [LoadSettled urlA pA camA] ++ q3
                        ++ [LoadSettled urlB pB camB]) w)) =
    match pB with
    | Fulfilled => outcome_LoadState pA
    | Rejected _ => outcome_LoadState pB
    end.
Proof.
  intros H1 H2 H3 started.
  assert (Hstarted : error (this (run started w)) = None).
  { subst started. rewrite !run_app, run_one.
    rewrite (passive_run_error q2 _ H2). apply error_after_start. }
  split; rewrite !run_app, !run_one;
    rewrite LoadState_after_settle, (passive_run_error q3 _ H3),
      error_after_settle, Hstarted;
    destruct pA, pB; reflexivity.
Qed.

(** B fails while reporting progress, then A succeeds: B's failure
    stays. *)
Lemma overlapping_loads_last_rejection_witness :
  let boom := {| toString := "Error: boom" |} in
  let q := [ProgressCbk "fetch" 50 (Some 100%float)] in
  forallb passive q = true /\
  LoadState_of
    (this (run ([UrlChanged (Some "a.dxf")] ++ q ++
                [UrlChanged (Some "b.dxf")] ++ q ++
                [LoadSettled "b.dxf" (Rejected boom) None] ++ q ++
                [LoadSettled "a.dxf" Fulfilled None]) created)) =
  outcome_LoadState (Rejected boom).
Proof.
  intros boom q.
  assert (Hq : forallb passive q = true) by reflexivity.
  split; [exact Hq|].
  exact (proj1 (overlapping_loads_last_rejection
                  "a.dxf" "b.dxf" Fulfilled (Rejected boom) None None
                  q q q created Hq Hq Hq)).
Defined.

(* ================================================================== *)
(** ** The logs of a run *)

Lemma eventNames_NoDup : NoDup eventNames.
Proof.
  unfold eventNames.
  repeat (constructor;
          [intros H; repeat (destruct H as [H|H]; [discriminate H|]); exact H|]).
  constructor.
Qed.

(** In a list without duplicates at most one element is equal to [name]. *)
Lemma filter_eqb_NoDup (name : string) (names : list string) :
  NoDup names ->
  filter (fun n => String.eqb n name) names =
  if existsb (String.eqb name) names then [name] else [].
Proof.
  induction 1 as [|n names Hn Hnames IH]; [reflexivity|].
  cbn [filter existsb]. rewrite IH, (String.eqb_sym name n).
  destruct (String.eqb n name) eqn:E; [|reflexivity].
  apply String.eqb_eq in E. subst n. cbn.
  destruct (existsb (String.eqb name) names) eqn:Ex; [|reflexivity].
  apply existsb_exists in Ex as (m & Hm & Em).
  apply String.eqb_eq in Em. subst m. contradiction.
Qed.

(** Each event appends to the three logs what its kind says, whatever the
    state of the component. *)
Lemma step_logs (ev : Event) (w : World) :
  emitted (step ev w) = (emitted w ++ emissions_of ev)%list /\
  console (step ev w) = (console w ++ warnings_of ev)%list /\
  engine (step ev w) = (engine w ++ calls_of ev)%list.
Proof.
  unfold step.
  destruct ev as [dxfUrl|phase size totalSize|url p cam|event dxfViewer|name e];
    cbn [react emissions_of warnings_of calls_of].
  - destruct dxfUrl; unfold watch_dxfUrl, Load_start; run_method;
      rewrite !app_nil_r; repeat split.
  - destruct (OnProgress_frame phase size totalSize w) as (_ & _ & _ & He & Hc & Hn).
    rewrite He, Hc, Hn, !app_nil_r. repeat split.
  - unfold Load_settle. destruct p as [|reason], cam as [camera|];
      run_method; rewrite !app_nil_r; repeat split.
  - unfold _OnMouseMove.
    destruct dxfViewer as [[[canvas|] [cam|]]|]; run_method;
      cbn [GetCanvas camera]; rewrite !app_nil_r; repeat split.
  - rewrite mounted_entries, engine_raise_relay. cbn [snd emitted console engine].
    rewrite (filter_eqb_NoDup name eventNames eventNames_NoDup), !app_nil_r.
    destruct (existsb (String.eqb name) eventNames); repeat split.
Qed.

(** A log that every step extends by [f] of the event is, after a run,
    extended by [f] of the events in order. *)
Lemma run_log {A : Type} (log : World -> list A) (f : Event -> list A) :
  (forall ev w, log (step ev w) = (log w ++ f ev)%list) ->
  forall trace w, log (run trace w) = (log w ++ flat_map f trace)%list.
Proof.
  intros Hstep. induction trace as [|ev trace IH]; intros w.
  - cbn. now rewrite app_nil_r.
  - cbn [run fold_left flat_map]. fold (run trace (step ev w)).
    rewrite IH, Hstep. now rewrite app_assoc.
Qed.

Lemma emissions_of_names (ev : Event) :
  Forall (fun out => In (emit_name out) outward_names) (emissions_of ev).
Proof.
  destruct ev as [dxfUrl|phase size totalSize|url p cam|event dxfViewer|name e];
    cbn [emissions_of]; try constructor.
  - destruct dxfViewer as [[[canvas|] [cam|]]|]; cbn; repeat constructor.
  - destruct (existsb (String.eqb name) eventNames) eqn:Ex; constructor;
      [|constructor].
    apply existsb_exists in Ex as (n & Hn & En).
    apply String.eqb_eq in En. subst n.
    right. cbn [relayed emit_name].
    apply (in_map (fun eventName => "dxf-" ++ eventName)), Hn.
Qed.

(** X4. The component asks the engine to load or to clear once per
    change of the URL and at no other time: after any run the [Load] and
    [Clear] calls made are a [Load] for each URL set and a [Clear] for
    each null, in the order of the changes. *)
Theorem engine_calls_follow_url_changes (trace : list Event) (w : World) :
  engine (run trace w) = (engine w ++ flat_map calls_of trace)%list.
Proof. apply (run_log engine calls_of). intros ev w'. apply step_logs. Qed.

(** X5. On a component that holds its engine, the console receives one
    warning for each rejected settlement, in order, and nothing else. *)
Theorem console_warnings_follow_rejections (trace : list Event) (w : World) :
  console (run trace w) = (console w ++ flat_map warnings_of trace)%list.
Proof. apply (run_log console warnings_of). intros ev w'. apply step_logs. Qed.

(** X6. The outward events depend on the input events only, not on the
    load state: a pointer move with canvas and camera gives one
    "coordinates-update" with the mapped point, an engine event of the
    relay list gives its "dxf-" event, and every other event gives none,
    also while a load runs or an error is shown. *)
Theorem outward_stream_follows_inputs (trace : list Event) (w : World) :
  emitted (run trace w) = (emitted w ++ flat_map emissions_of trace)%list.
Proof. apply (run_log emitted emissions_of). intros ev w'. apply step_logs. Qed.

(** X7. Whatever happens, the component emits under nine names only:
    "coordinates-update" and "dxf-" followed by one of the eight relayed
    engine events. *)
Theorem outward_names_only (trace : list Event) :
  Forall (fun out => In (emit_name out) outward_names)
         (emitted (run trace created)).
Proof.
  rewrite (run_log emitted emissions_of (fun ev w => proj1 (step_logs ev w))).
  cbn [created emitted app].
  induction trace as [|ev trace IH]; [constructor|].
  cbn [flat_map]. apply Forall_app. split; [apply emissions_of_names|exact IH].
Qed.

(** X8. An engine event whose name is not one of the eight subscribed
    ones reaches no handler: nothing is emitted and the component is left
    as it is. *)
Theorem unknown_engine_event_is_dropped (eventName : string) (e : JsValue)
    (w : World) :
  ~ In eventName eventNames ->
  engine_raise mounted eventName e w = (Normal tt, w).
Proof.
  intros Hnot. rewrite mounted_entries, engine_raise_relay.
  rewrite (filter_eqb_NoDup eventName eventNames eventNames_NoDup).
  destruct (existsb (String.eqb eventName) eventNames) eqn:Ex.
  - apply existsb_exists in Ex as (n & Hn & En).
    apply String.eqb_eq in En. subst n. contradiction.
  - cbn [map]. rewrite app_nil_r. destruct w; reflexivity.
Qed.

(** The engine's "pointermove" is not relayed. *)
Lemma unknown_engine_event_is_dropped_witness :
  ~ In "pointermove" eventNames /\
  engine_raise mounted "pointermove" JsNull created = (Normal tt, created).
Proof.
  assert (H : ~ In "pointermove" eventNames).
  { intros H. repeat (destruct H as [H|H]; [discriminate H|]). exact H. }
  split; [exact H|].
  exact (unknown_engine_event_is_dropped "pointermove" JsNull created H).
Defined.

(* ================================================================== *)
(** ** The stored coordinates *)

(** A step keeps the reading or stores one in the plane [z = 0]. *)
Lemma step_coordinates_cases (ev : Event) (w : World) :
  coordinates (this (step ev w)) = coordinates (this w) \/
  exists c, coordinates (this (step ev w)) = Some c /\ z c = 0%float.
Proof.
  unfold step.
  destruct ev as [dxfUrl|phase size totalSize|url p cam|event dxfViewer|name e];
    cbn [react].
  - left. rewrite watch_dxfUrl_this. destruct dxfUrl; reflexivity.
  - left. apply (OnProgress_frame phase size totalSize w).
  - rewrite Load_settle_this. cbn [coordinates].
    destruct p as [|reason], cam as [camera|];
      (now left) || (right; eexists; split; reflexivity).
  - unfold _OnMouseMove.
    destruct dxfViewer as [[[canvas|] [cam|]]|]; run_method;
      (now left) || (right; eexists; split; reflexivity).
  - left. now rewrite engine_raise_this.
Qed.

(** X9. No event takes the coordinate reading away: once a reading is
    stored, one is stored after every further run (a clear and a failed
    load included), so the coordinates block, once displayed, stays. *)
Theorem coordinates_never_reset (trace : list Event) (w : World) :
  coordinates (this w) <> None ->
  coordinates (this (run trace w)) <> None.
Proof.
  revert w. induction trace as [|ev trace IH]; intros w Hw; [exact Hw|].
  cbn [run fold_left]. fold (run trace (step ev w)). apply IH.
  destruct (step_coordinates_cases ev w) as [Heq|(c & Hc & _)].
  - now rewrite Heq.
  - rewrite Hc. discriminate.
Qed.

(** A reading seeded by a load survives a clear and a failed load. *)
Lemma coordinates_never_reset_witness :
  let w := run [UrlChanged (Some "a.dxf");
                LoadSettled "a.dxf" Fulfilled (Some bounds_10)] created in
  let trace :=
    [UrlChanged None; UrlChanged (Some "b.dxf");
     LoadSettled "b.dxf" (Rejected {| toString := "Error: boom" |}) None] in
  coordinates (this w) <> None /\ coordinates (this (run trace w)) <> None.
Proof.
  intros w trace.
  assert (H : coordinates (this w) <> None) by (vm_compute; discriminate).
  split; [exact H|].
  exact (coordinates_never_reset trace w H).
Defined.

(** X10. Every reading the component ever stores lies in the plane
    [z = 0]. *)
Theorem coordinates_z_is_zero (trace : list Event) (c : Coordinates) :
  coordinates (this (run trace created)) = Some c -> z c = 0%float.
Proof.
  assert (inv : forall trace w,
            (forall c, coordinates (this w) = Some c -> z c = 0%float) ->
            forall c, coordinates (this (run trace w)) = Some c -> z c = 0%float).
  { clear. induction trace as [|ev trace IH]; intros w Hw; [exact Hw|].
    cbn [run fold_left]. fold (run trace (step ev w)). apply IH.
    intros c Hc.
    destruct (step_coordinates_cases ev w) as [Heq|(c' & Hc' & Hz)].
    - apply Hw. now rewrite <- Heq.
    - rewrite Hc' in Hc. injection Hc as <-. exact Hz. }
  apply (inv trace created). intros c' Hc'. discriminate Hc'.
Qed.

(** The reading after a pointer move at the centre of the viewport. *)
Lemma coordinates_z_is_zero_witness :
  let trace := [MouseMove {| clientX := 100; clientY := 100 |}
                  (Some (viewer_with viewport_200 bounds_10))] in
  let c := {| x := 0; y := 0; z := 0 |}%float in
  coordinates (this (run trace created)) = Some c /\ z c = 0%float.
Proof.
  intros trace c.
  assert (H : coordinates (this (run trace created)) = Some c) by reflexivity.
  split; [exact H|].
  exact (coordinates_z_is_zero trace c H).
Defined.

(* ================================================================== *)
(** ** Loads in flight *)

Lemma idle_after_settle (p : Settlement) (cam : option Camera.t) (w : World) :
  idle (this (snd (Load_settle p cam w))).
Proof. rewrite Load_settle_this. repeat split. Qed.

Lemma idle_after_clear (w : World) :
  idle (this w) -> idle (this (snd (watch_dxfUrl None w))).
Proof.
  rewrite watch_dxfUrl_this. intros (_ & _ & Ht & Hp). repeat split; assumption.
Qed.

Lemma idle_after_pointer (event : MouseEvent) (dxfViewer : option DxfViewer)
    (w : World) :
  idle (this w) -> idle (this (snd (_OnMouseMove event dxfViewer w))).
Proof.
  destruct (OnMouseMove_frame event dxfViewer w) as (Hs & _).
  unfold LoadState_of in Hs. injection Hs as Hl _ Hp Hph Ht.
  unfold idle. now rewrite Hl, Hp, Hph, Ht.
Qed.

(** The invariant behind [idle]: it holds whenever no load is in flight. *)
Lemma idle_when_settled (trace : list Event) :
  forall pending w,
    schedulable pending trace = true ->
    (pending = [] -> idle (this w)) ->
    in_flight pending trace = [] ->
    idle (this (run trace w)).
Proof.
  induction trace as [|ev trace IH]; intros pending w Hs Hw Hf.
  - apply Hw, Hf.
  - cbn [run fold_left]. fold (run trace (step ev w)). unfold step.
    destruct ev as [[url|]|phase size totalSize|url p cam|event dxfViewer|name e];
      cbn [schedulable in_flight react] in *.
    + apply (IH (url :: pending)); [exact Hs|discriminate|exact Hf].
    + apply (IH pending); [exact Hs| |exact Hf].
      intros Hp. apply idle_after_clear, Hw, Hp.
    + destruct pending as [|u pending]; [discriminate Hs|].
      apply (IH (u :: pending)); [exact Hs|discriminate|exact Hf].
    + destruct (take_pending url pending) as [pending'|]; [|discriminate Hs].
      apply (IH pending'); [exact Hs| |exact Hf].
      intros _. apply idle_after_settle.
    + apply (IH pending); [exact Hs| |exact Hf].
      intros Hp. apply idle_after_pointer, Hw, Hp.
    + apply (IH pending); [exact Hs| |exact Hf].
      intros Hp. rewrite engine_raise_this. apply Hw, Hp.
Qed.

(** X1. When every load that was started has settled (progress callbacks
    coming only while a load is in flight), [isLoading] is false and
    [progress], [progressText] and [curProgressPhase] are null: the
    template shows neither the loading overlay nor the progress block. *)
Theorem idle_when_nothing_in_flight (trace : list Event) :
  schedulable [] trace = true ->
  in_flight [] trace = [] ->
  idle (this (run trace created)) /\
  showing (render (this (run trace created))) = false /\
  progress_block (render (this (run trace created))) = None.
Proof.
  intros Hs Hf.
  assert (H : idle (this (run trace created))).
  { apply (idle_when_settled trace [] created Hs); [|exact Hf].
    intros _. repeat split. }
  split; [exact H|]. destruct H as (Hl & Hp & _).
  unfold render. cbn [showing progress_block]. now rewrite Hl, Hp.
Qed.

(** Two overlapping loads with progress, a clear in between, both
    settled. *)
Lemma idle_when_nothing_in_flight_witness :
  let trace :=
    [UrlChanged (Some "a.dxf");
     ProgressCbk "fetch" 50 (Some 100%float);
     UrlChanged (Some "b.dxf");
     UrlChanged None;
     LoadSettled "a.dxf" Fulfilled None;
     ProgressCbk "parse" 10 None;
     LoadSettled "b.dxf" (Rejected {| toString := "Error: boom" |}) None] in
  schedulable [] trace = true /\
  in_flight [] trace = [] /\
  idle (this (run trace created)).
Proof.
  intros trace.
  assert (Hs : schedulable [] trace = true) by reflexivity.
  assert (Hf : in_flight [] trace = []) by reflexivity.
  split; [exact Hs|split; [exact Hf|]].
  exact (proj1 (idle_when_nothing_in_flight trace Hs Hf)).
Defined.

(** X2. A load that starts and settles with no other URL change or
    settlement in between leaves exactly its own outcome, whatever
    happened before it: [isLoading] false, the progress fields null, and
    [error] its failure text, or null when it was fulfilled, so that an
    earlier error is gone. *)
Theorem sequential_load_outcome (before q : list Event) (url : string)
    (p : Settlement) (cam : option Camera.t) :
  forallb passive q = true ->
  LoadState_of
    (this (run (before ++ [UrlChanged (Some url)] ++ q
                       ++ [LoadSettled url p cam]) created)) =
  outcome_LoadState p.
Proof.
  intros Hq. rewrite run_app. now apply single_load_outcome.
Qed.

(** A successful load after a failed one clears the error. *)
Lemma sequential_load_outcome_witness :
  let before :=
    [UrlChanged (Some "a.dxf");
     LoadSettled "a.dxf" (Rejected {| toString := "Error: boom" |}) None] in
  let q := [ProgressCbk "fetch" 50 (Some 100%float)] in
  forallb passive q = true /\
  error (this (run before created)) = Some "Error: boom" /\
  LoadState_of
    (this (run (before ++ [UrlChanged (Some "b.dxf")] ++ q
                       ++ [LoadSettled "b.dxf" Fulfilled None]) created)) =
  outcome_LoadState Fulfilled.
Proof.
  intros before q.
  assert (Hq : forallb passive q = true) by reflexivity.
  split; [exact Hq|split; [reflexivity|]].
  exact (sequential_load_outcome before q "b.dxf" Fulfilled None Hq).
Defined.

Lemma keeps_error_step (ev : Event) (w : World) :
  keeps_error ev = true -> error (this (step ev w)) = error (this w).
Proof.
  destruct ev as [dxfUrl|phase size totalSize|url p cam|event dxfViewer|name e];
    cbn [keeps_error]; try discriminate; intros Hev.
  - now apply passive_step_error.
  - rewrite error_after_settle. destruct p; [reflexivity|discriminate Hev].
  - now apply passive_step_error.
  - now apply passive_step_error.
Qed.

(** X3. On a component that holds its engine, an error stays as it is
    until the URL changes or a load is rejected: progress callbacks,
    fulfilled settlements (of an older load, say), pointer moves and
    engine events all keep the text. *)
Theorem error_persists (trace : list Event) (w : World) :
  forallb keeps_error trace = true ->
  error (this (run trace w)) = error (this w).
Proof.
  revert w. induction trace as [|ev trace IH]; intros w Ht; [reflexivity|].
  cbn [forallb] in Ht. apply andb_true_iff in Ht as [Hev Ht].
  cbn [run fold_left]. fold (run trace (step ev w)).
  rewrite (IH _ Ht). now apply keeps_error_step.
Qed.

(** B's failure survives A's success and the events around it. *)
Lemma error_persists_witness :
  let w := run [UrlChanged (Some "a.dxf"); UrlChanged (Some "b.dxf");
                LoadSettled "b.dxf" (Rejected {| toString := "Error: boom" |})
                  None] created in
  let trace :=
    [ProgressCbk "parse" 10 None;
     LoadSettled "a.dxf" Fulfilled (Some bounds_10);
     MouseMove {| clientX := 100; clientY := 100 |}
       (Some (viewer_with viewport_200 bounds_10));
     EngineRaised "loaded" JsNull] in
  forallb keeps_error trace = true /\
  error (this (run trace w)) = Some "Error: boom".
Proof.
  intros w trace.
  assert (Ht : forallb keeps_error trace = true) by reflexivity.
  split; [exact Ht|].
  exact (error_persists trace w Ht).
Defined.

(* ================================================================== *)
(** ** What the template displays *)

Lemma quiet_step_blank (ev : Event) (w : World) :
  quiet ev = true ->
  blank (render (this w)) -> blank (render (this (step ev w))).
Proof.
  unfold blank, render. cbn [showing progress_block error_block].
  intros Hev (Hl & Hp & He).
  destruct (progress (this w)) eqn:Hpw; [discriminate Hp|].
  unfold step.
  destruct ev as [dxfUrl|phase size totalSize|url p cam|event dxfViewer|name e];
    cbn [quiet] in Hev; try discriminate Hev; cbn [react].
  - destruct p; [|discriminate Hev]. rewrite Load_settle_this. cbn.
    repeat split. exact He.
  - destruct (OnMouseMove_frame event dxfViewer w) as (Hs & _).
    unfold LoadState_of in Hs. injection Hs as Hl' He' Hp' _ _.
    now rewrite Hl', He', Hp', Hpw.
  - now rewrite engine_raise_this, Hpw.
Qed.

(** X11. After the URL is set to null the template displays nothing of
    a load (no overlay, no progress block and so no label, no error
    block), in whatever state the clear found the component, and this
    lasts through pointer moves, engine events and fulfilled settlements
    of older loads: only a new URL, a progress callback or a rejection
    brings something back. *)
Theorem clear_blanks_load_display (trace : list Event) (w : World) :
  forallb quiet trace = true ->
  blank (render (this (run (UrlChanged None :: trace) w))).
Proof.
  cbn [run fold_left]. fold (run trace (step (UrlChanged None) w)).
  assert (H0 : blank (render (this (step (UrlChanged None) w)))).
  { unfold step. cbn [react]. rewrite watch_dxfUrl_this. repeat split. }
  revert H0. generalize (step (UrlChanged None) w). clear w.
  induction trace as [|ev trace IH]; intros w Hw Ht; [exact Hw|].
  cbn [forallb] in Ht. apply andb_true_iff in Ht as [Hev Ht].
  cbn [run fold_left]. fold (run trace (step ev w)).
  apply IH; [|exact Ht]. now apply quiet_step_blank.
Qed.

(** A clear during the "fetch" phase of a load, which then succeeds. *)
Lemma clear_blanks_load_display_witness :
  let w := run [UrlChanged (Some "a.dxf");
                ProgressCbk "fetch" 50 (Some 100%float)] created in
  let trace :=
    [MouseMove {| clientX := 100; clientY := 100 |}
       (Some (viewer_with viewport_200 bounds_10));
     LoadSettled "a.dxf" Fulfilled (Some bounds_10)] in
  forallb quiet trace = true /\
  progress_block (render (this w)) <> None /\
  blank (render (this (run (UrlChanged None :: trace) w))).
Proof.
  intros w trace.
  assert (Ht : forallb quiet trace = true) by reflexivity.
  split; [exact Ht|]. split; [vm_compute; discriminate|].
  exact (clear_blanks_load_display trace w Ht).
Defined.

(** X12. Every progress callback puts the progress block on display,
    also one that arrives when no load is marked as running.  The bar
    shows the stored ratio; it is indeterminate when [totalSize] is null
    and otherwise exactly when the ratio is below zero (a NaN ratio is
    shown as a determinate value).  The overlay and the error block are
    not affected. *)
Theorem progress_callback_shows_bar (phase : string) (size : float)
    (totalSize : option float) (w : World) :
  let v := render (this (step (ProgressCbk phase size totalSize) w)) in
  progress_block v =
    Some {| indeterminate :=
              match totalSize with
              | None => true
              | Some totalSize => PrimFloat.ltb (size / totalSize) 0
              end;
            value :=
              match totalSize with
              | None => (-1)%float
              | Some totalSize => (size / totalSize)%float
              end;
            progressText_shown :=
              progressText (this (step (ProgressCbk phase size totalSize) w)) |} /\
  showing v = showing (render (this w)) /\
  error_block v = error_block (render (this w)).
Proof.
  unfold step. cbn [react]. unfold render.
  cbn [showing progress_block error_block].
  rewrite OnProgress_progress.
  destruct (OnProgress_frame phase size totalSize w) as (Hl & He & _).
  rewrite Hl, He. destruct totalSize; repeat split.
Qed.

(* ================================================================== *)
(** ** Load without engine *)

Lemma Load_sync_with_engine (viewer : DxfViewer) (TypeError : LoadFailure)
    (url : string) :
  Load_sync (Some viewer) TypeError url = Load_start url.
Proof. reflexivity. Qed.

(** X13. [Load] called on a component that has no engine (before
    [mounted] or after [destroyed]) does not throw: the TypeError of the
    failed property read is caught like a load failure.  The call
    completes at once with [isLoading] false, the progress fields null
    and [error] the TypeError's text; the warning goes to the console,
    no engine call is made, nothing is emitted and the coordinates are
    kept. *)
Theorem Load_without_engine_reports_error (TypeError : LoadFailure)
    (url : string) (w : World) :
  Load_sync None TypeError url w =
  (Normal tt,
   {| this :=
        {| isLoading := false; progress := None; progressText := None;
           curProgressPhase := None; error := Some (toString TypeError);
           coordinates := coordinates (this w) |};
      emitted := emitted w;
      console := (console w ++ [TypeError])%list;
      engine := engine w |}).
Proof. unfold Load_sync. run_method. reflexivity. Qed.

(* ================================================================== *)
(** ** The last writer wins *)

Lemma step_flag_and_error (ev : Event) (w : World) :
  isLoading (this (step ev w)) = flag_after ev (isLoading (this w)) /\
  error (this (step ev w)) = error_after ev (error (this w)).
Proof.
  unfold step.
  destruct ev as [dxfUrl|phase size totalSize|url p cam|event dxfViewer|name e];
    cbn [react flag_after error_after].
  - rewrite watch_dxfUrl_this. destruct dxfUrl; split; reflexivity.
  - destruct (OnProgress_frame phase size totalSize w) as (Hl & He & _).
    now split.
  - rewrite Load_settle_this. destruct p; split; reflexivity.
  - destruct (OnMouseMove_frame event dxfViewer w) as (Hs & _).
    unfold LoadState_of in Hs. injection Hs as Hl He _ _ _. now split.
  - rewrite engine_raise_this. now split.
Qed.

(** X14. On a component that holds its engine and for rejection values
    with a text, the loading flag and the error text follow the last
    event that writes them, with no count of the loads in flight: after
    any run, [isLoading] is true exactly when the last URL change or
    settlement was a load start, and [error] is the text of the last
    rejection unless a URL change came after it. *)
Theorem last_writer_wins (trace : list Event) (w : World) :
  isLoading (this (run trace w)) =
    fold_left (fun flag ev => flag_after ev flag) trace (isLoading (this w)) /\
  error (this (run trace w)) =
    fold_left (fun text ev => error_after ev text) trace (error (this w)).
Proof.
  revert w. induction trace as [|ev trace IH]; intros w; [now split|].
  cbn [run fold_left]. fold (run trace (step ev w)).
  destruct (step_flag_and_error ev w) as (Hl & He).
  rewrite <- Hl, <- He. apply IH.
Qed.

(* ================================================================== *)
(** ** The continuation of Load off the usual paths *)

(** X15. Two paths of the continuation of [Load] beside the usual ones.
    When the load is fulfilled after the component lost its engine, the
    TypeError of reading [camera] is caught like a load failure: [error]
    becomes its text, a warning is written and [Load] resolves.  When the
    load is rejected with undefined or null, the warning is written, then
    [error.toString()] throws: [error] keeps its value and [Load] is
    rejected with that TypeError.  On both paths the finalizer has run,
    and nothing is emitted, no engine call is made and the coordinates
    are kept. *)
Theorem Load_resume_edge_paths (TypeError : string -> LoadFailure)
    (dxfViewer : option DxfViewer) (w : World) :
  Load_resume TypeError EngineFulfilled None w =
    (Normal' tt,
     {| this :=
          {| isLoading := false; progress := None; progressText := None;
             curProgressPhase := None;
             error := Some (toString (TypeError "camera"));
             coordinates := coordinates (this w) |};
        emitted := emitted w;
        console := (console w ++ [TypeError "camera"])%list;
        engine := engine w |}) /\
  (forall reason,
     reason = ThrownUndefined \/ reason = ThrownNull ->
     Load_resume TypeError (EngineRejected reason) dxfViewer w =
     (Throw' (Described (TypeError "toString")),
      {| this :=
           {| isLoading := false; progress := None; progressText := None;
              curProgressPhase := None; error := error (this w);
              coordinates := coordinates (this w) |};
         emitted := emitted w;
         console := (console w ++ [console_entry reason])%list;
         engine := engine w |})).
Proof.
  split.
  - unfold Load_resume. run_method'. reflexivity.
  - intros reason [-> | ->]; unfold Load_resume; run_method'; reflexivity.
Qed.

(** A load rejected with null while an earlier error is shown. *)
Lemma Load_resume_edge_paths_witness :
  let w := run [UrlChanged (Some "a.dxf");
                LoadSettled "a.dxf" (Rejected {| toString := "Error: boom" |})
                  None;
                ProgressCbk "fetch" 50 (Some 100%float)] created in
  let r := Load_resume TypeError_of_undefined (EngineRejected ThrownNull)
             None w in
  (ThrownNull = ThrownUndefined \/ ThrownNull = ThrownNull) /\
  fst r = Throw' (Described (TypeError_of_undefined "toString")) /\
  error (this (snd r)) = Some "Error: boom" /\
  progress (this (snd r)) = None.
Proof.
  intros w r.
  assert (H : ThrownNull = ThrownUndefined \/ ThrownNull = ThrownNull)
    by (right; reflexivity).
  split; [exact H|].
  pose proof (proj2 (Load_resume_edge_paths TypeError_of_undefined None w)
                ThrownNull H) as E.
  subst r. rewrite E. repeat split.
Defined.
